(** * fuzzcheck: the code-coverage sensor's C layer

    A model of the three C files under
    [fuzzcheck/src/code_coverage_sensor]:

    - [c_builtins.c]: [return_address], the frame inspector;
    - [instrumentation_pointers_linux.c]: the ELF section locator;
    - [instrumentation_pointers_mac.c]: the Mach-O section locator.

    Every function of the three files is a single [return]; what they
    return is fixed by the linker (addresses of boundary symbols) and by
    the compiler (the frame-walking intrinsic).  The C functions are
    written as computations over an explicit process state; the linker and
    the intrinsic, which are not part of the repository, are modelled from
    the documentation the sources carry. *)

From stdpp Require Import base strings gmap list relations.
From Stdlib Require Import ZArith Lia.

Local Open Scope string_scope.
Local Open Scope Z_scope.

(** ** C types of the fragment (LP64, the data model of both targets) *)

Inductive ctype : Type :=
| Tvoid
| Tint
| Tchar
| Tulong
| Tptr (t : ctype).

#[global] Instance ctype_eq_dec : EqDecision ctype.
Proof. solve_decision. Defined.

Definition sizeof (t : ctype) : Z :=
  match t with
  | Tvoid => 1
  | Tchar => 1
  | Tint => 4
  | Tulong => 8
  | Tptr _ => 8
  end.

(** The type a pointer type points to. *)
Definition pointee (t : ctype) : ctype :=
  match t with
  | Tptr u => u
  | _ => Tvoid
  end.

(** Addresses are 64-bit words. *)
Definition addr_modulus : Z := 2 ^ 64.

(** ** Declarations at file scope *)

(** [extern T x;] or [extern T x __asm("label");]: a symbol the linker has
    to resolve.  The asm label, when present, replaces the identifier as
    the name the linker sees. *)
Record extern_decl : Type := {
  ext_ident : string;
  ext_label : option string;
  ext_type : ctype
}.

Definition link_name (d : extern_decl) : string :=
  default (ext_ident d) (ext_label d).

(** [extern int x = 0;]: an initialiser makes the declaration a
    definition. *)
Record global_def : Type := {
  def_ident : string;
  def_type : ctype;
  def_init : Z
}.

(** ** The process *)

(** An activation record: the function that runs in it and the address at
    which its caller resumes when it returns. *)
Record frame : Type := {
  frame_fn : string;
  frame_ret : Z
}.

(** What [__builtin_return_address] does where it cannot determine a
    frame: "returns 0 or a random value", or it faults ("unpredictable
    effects, including crashing the calling program"). *)
Inductive walk_failure : Type :=
| Yields (v : Z)
| Faults.

(** The build and machine the process runs on: whether caller frames can be
    walked (frame pointers kept, [-Cforce-frame-pointers=yes]) and what the
    intrinsic does where it cannot determine a frame.  The record stands
    for one call in one state: a real intrinsic reads through whatever the
    frame pointer holds, so what it does on failure varies with the stack
    and the memory, and nothing is stated here that compares the failure
    of two calls. *)
Record platform : Type := {
  can_walk_frames : bool;
  undeterminable : walk_failure
}.

(** [symtab]: the addresses the linker gave to symbols, fixed at load time.
    [memory]: the contents of the data, mutated by the instrumented code.
    [stack]: the call stack, innermost frame first. *)
Record process : Type := {
  symtab : gmap string Z;
  memory : gmap Z Z;
  stack : list frame;
  abi : platform
}.

Definition push_frame (fr : frame) (st : process) : process :=
  {| symtab := symtab st; memory := memory st;
     stack := fr :: stack st; abi := abi st |}.

Definition pop_frame (st : process) : process :=
  {| symtab := symtab st; memory := memory st;
     stack := tail (stack st); abi := abi st |}.

Definition store (a v : Z) (st : process) : process :=
  {| symtab := symtab st; memory := <[a := v]> (memory st);
     stack := stack st; abi := abi st |}.

(** ** Computations *)

(** A C function's run either returns a value in a state, or names a
    symbol the image does not resolve (a program that failed to link), or
    crashes the process. *)
Inductive outcome (A : Type) : Type :=
| Returns (v : A) (st : process)
| Unresolved (sym : string)
| Crashed.

Arguments Returns {A} v st.
Arguments Unresolved {A} sym.
Arguments Crashed {A}.

Definition M (A : Type) : Type := process -> outcome A.

(** The value of an outcome, when there is one. *)
Definition result {A} (o : outcome A) : option A :=
  match o with
  | Returns v _ => Some v
  | _ => None
  end.

(** [&x] for an [extern] object [x]: the address the linker resolved its
    name to. *)
Definition address_of (d : extern_decl) : M Z :=
  fun st =>
    match symtab st !! link_name d with
    | Some a => Returns a st
    | None => Unresolved (link_name d)
    end.

(** The outcome of the intrinsic where it cannot determine the frame. *)
Definition undetermined : M Z :=
  fun st =>
    match undeterminable (abi st) with
    | Yields v => Returns v st
    | Faults => Crashed
    end.

(** [__builtin_return_address(level)].  The intrinsic belongs to the
    compiler, not to the repository; this follows the documentation that
    [c_builtins.c] quotes (lines 5-28): level 0 yields the return address
    of the current function, level 1 that of its caller, and so forth; on
    machines that cannot determine the return address of any function
    other than the current one, or when the top of the stack has been
    reached, it returns 0 or a random value, and a call with a nonzero
    level may crash the program. *)
Definition builtin_return_address (level : nat) : M Z :=
  fun st =>
    match level with
    | O =>
        match stack st with
        | fr :: _ => Returns (frame_ret fr) st
        | [] => undetermined st
        end
    | S _ =>
        if can_walk_frames (abi st) then
          match stack st !! level with
          | Some fr => Returns (frame_ret fr) st
          | None => undetermined st
          end
        else undetermined st
    end.

(** ** Functions and calls *)

(** A function definition: its name, its result type, the types of its
    parameters and its body.  All functions of the layer return a
    pointer. *)
Record cfun : Type := {
  fn_name : string;
  fn_result : ctype;
  fn_params : list ctype;
  fn_body : M Z
}.

(** A call from the call site that resumes at [site]: the callee runs in a
    frame of its own, which is gone when it returns. *)
Definition call (site : Z) (f : cfun) : M Z :=
  fun st =>
    match fn_body f (push_frame {| frame_fn := fn_name f; frame_ret := site |} st) with
    | Returns v st' => Returns v (pop_frame st')
    | Unresolved s => Unresolved s
    | Crashed => Crashed
    end.

(** A translation unit: what it defines, what it leaves to the linker, and
    its functions, in source order. *)
Record translation_unit : Type := {
  tu_defs : list global_def;
  tu_externs : list extern_decl;
  tu_funs : list cfun
}.

(** ** c_builtins.c *)

Module Builtins.

(** [void* return_address() { return __builtin_return_address(1); }]:
    no parameter; the level is the literal 1. *)
Definition return_address : cfun :=
  {| fn_name := "return_address";
     fn_result := Tptr Tvoid;
     fn_params := [];
     fn_body := builtin_return_address 1 |}.

Definition tu : translation_unit :=
  {| tu_defs := []; tu_externs := []; tu_funs := [return_address] |}.

End Builtins.

(** ** The section locator, as both files implement it *)

Record SectionLocator : Type := {
  start_counters : cfun;
  end_counters : cfun;
  start_metadata : cfun;
  end_metadata : cfun
}.

(** ** instrumentation_pointers_linux.c *)

Module Linux.

(** [extern int __llvm_profile_runtime = 0;] *)
Definition __llvm_profile_runtime : global_def :=
  {| def_ident := "__llvm_profile_runtime"; def_type := Tint; def_init := 0 |}.

(** [extern unsigned long int __start___llvm_prf_cnts;] *)
Definition __start___llvm_prf_cnts : extern_decl :=
  {| ext_ident := "__start___llvm_prf_cnts"; ext_label := None;
     ext_type := Tulong |}.

(** [extern unsigned long int __stop___llvm_prf_cnts;] *)
Definition __stop___llvm_prf_cnts : extern_decl :=
  {| ext_ident := "__stop___llvm_prf_cnts"; ext_label := None;
     ext_type := Tulong |}.

(** [extern char __start___llvm_prf_data;] *)
Definition __start___llvm_prf_data : extern_decl :=
  {| ext_ident := "__start___llvm_prf_data"; ext_label := None;
     ext_type := Tchar |}.

(** [extern char __stop___llvm_prf_data;] *)
Definition __stop___llvm_prf_data : extern_decl :=
  {| ext_ident := "__stop___llvm_prf_data"; ext_label := None;
     ext_type := Tchar |}.

(** [char * get_start_prf_data() { return &__start___llvm_prf_data; }] *)
Definition get_start_prf_data : cfun :=
  {| fn_name := "get_start_prf_data";
     fn_result := Tptr Tchar;
     fn_params := [];
     fn_body := address_of __start___llvm_prf_data |}.

(** [char *get_end_prf_data() { return &__stop___llvm_prf_data; }] *)
Definition get_end_prf_data : cfun :=
  {| fn_name := "get_end_prf_data";
     fn_result := Tptr Tchar;
     fn_params := [];
     fn_body := address_of __stop___llvm_prf_data |}.

(** [unsigned long int * get_start_instrumentation_counters()
     { return &__start___llvm_prf_cnts; }] *)
Definition get_start_instrumentation_counters : cfun :=
  {| fn_name := "get_start_instrumentation_counters";
     fn_result := Tptr Tulong;
     fn_params := [];
     fn_body := address_of __start___llvm_prf_cnts |}.

(** [unsigned long int * get_end_instrumentation_counters()
     { return &__stop___llvm_prf_cnts; }] *)
Definition get_end_instrumentation_counters : cfun :=
  {| fn_name := "get_end_instrumentation_counters";
     fn_result := Tptr Tulong;
     fn_params := [];
     fn_body := address_of __stop___llvm_prf_cnts |}.

Definition tu : translation_unit :=
  {| tu_defs := [__llvm_profile_runtime];
     tu_externs := [__start___llvm_prf_cnts; __stop___llvm_prf_cnts;
                    __start___llvm_prf_data; __stop___llvm_prf_data];
     tu_funs := [get_start_prf_data; get_end_prf_data;
                 get_start_instrumentation_counters;
                 get_end_instrumentation_counters] |}.

Definition locator : SectionLocator :=
  {| start_counters := get_start_instrumentation_counters;
     end_counters := get_end_instrumentation_counters;
     start_metadata := get_start_prf_data;
     end_metadata := get_end_prf_data |}.

End Linux.

(** ** instrumentation_pointers_mac.c *)

Module Mac.

(** [extern int __llvm_profile_runtime = 0;] *)
Definition __llvm_profile_runtime : global_def :=
  {| def_ident := "__llvm_profile_runtime"; def_type := Tint; def_init := 0 |}.

(** [extern unsigned long int
     CountersStart __asm("section$start$__DATA$__llvm_prf_cnts");] *)
Definition CountersStart : extern_decl :=
  {| ext_ident := "CountersStart";
     ext_label := Some "section$start$__DATA$__llvm_prf_cnts";
     ext_type := Tulong |}.

(** [extern unsigned long int
     CountersEnd __asm("section$end$__DATA$__llvm_prf_cnts");] *)
Definition CountersEnd : extern_decl :=
  {| ext_ident := "CountersEnd";
     ext_label := Some "section$end$__DATA$__llvm_prf_cnts";
     ext_type := Tulong |}.

(** [unsigned long int *get_start_instrumentation_counters()
     { return &CountersStart; }] *)
Definition get_start_instrumentation_counters : cfun :=
  {| fn_name := "get_start_instrumentation_counters";
     fn_result := Tptr Tulong;
     fn_params := [];
     fn_body := address_of CountersStart |}.

(** [unsigned long int *get_end_instrumentation_counters()
     { return &CountersEnd; }] *)
Definition get_end_instrumentation_counters : cfun :=
  {| fn_name := "get_end_instrumentation_counters";
     fn_result := Tptr Tulong;
     fn_params := [];
     fn_body := address_of CountersEnd |}.

(** [extern char
     PrfDataStart __asm("section$start$__DATA$__llvm_prf_data");] *)
Definition PrfDataStart : extern_decl :=
  {| ext_ident := "PrfDataStart";
     ext_label := Some "section$start$__DATA$__llvm_prf_data";
     ext_type := Tchar |}.

(** [extern char PrfDataEnd __asm("section$end$__DATA$__llvm_prf_data");] *)
Definition PrfDataEnd : extern_decl :=
  {| ext_ident := "PrfDataEnd";
     ext_label := Some "section$end$__DATA$__llvm_prf_data";
     ext_type := Tchar |}.

(** [char *get_start_prf_data() { return &PrfDataStart; }] *)
Definition get_start_prf_data : cfun :=
  {| fn_name := "get_start_prf_data";
     fn_result := Tptr Tchar;
     fn_params := [];
     fn_body := address_of PrfDataStart |}.

(** [char *get_end_prf_data() { return &PrfDataEnd; }] *)
Definition get_end_prf_data : cfun :=
  {| fn_name := "get_end_prf_data";
     fn_result := Tptr Tchar;
     fn_params := [];
     fn_body := address_of PrfDataEnd |}.

Definition tu : translation_unit :=
  {| tu_defs := [__llvm_profile_runtime];
     tu_externs := [CountersStart; CountersEnd; PrfDataStart; PrfDataEnd];
     tu_funs := [get_start_instrumentation_counters;
                 get_end_instrumentation_counters;
                 get_start_prf_data; get_end_prf_data] |}.

Definition locator : SectionLocator :=
  {| start_counters := get_start_instrumentation_counters;
     end_counters := get_end_instrumentation_counters;
     start_metadata := get_start_prf_data;
     end_metadata := get_end_prf_data |}.

End Mac.

(** ** The two variants, one per object-file format *)

Inductive variant : Type := ELF | MachO.

Inductive region : Type := Counters | Metadata.

Inductive boundary : Type := Start | End_.

#[global] Instance variant_eq_dec : EqDecision variant.
Proof. solve_decision. Defined.
#[global] Instance region_eq_dec : EqDecision region.
Proof. solve_decision. Defined.
#[global] Instance boundary_eq_dec : EqDecision boundary.
Proof. solve_decision. Defined.

Definition unit_of (v : variant) : translation_unit :=
  match v with
  | ELF => Linux.tu
  | MachO => Mac.tu
  end.

Definition locator_of (v : variant) : SectionLocator :=
  match v with
  | ELF => Linux.locator
  | MachO => Mac.locator
  end.

(** [start_of(region)] and [end_of(region)] of the contract. *)
Definition accessor (v : variant) (r : region) (b : boundary) : cfun :=
  match r, b with
  | Counters, Start => start_counters (locator_of v)
  | Counters, End_ => end_counters (locator_of v)
  | Metadata, Start => start_metadata (locator_of v)
  | Metadata, End_ => end_metadata (locator_of v)
  end.

(** The five operations of the layer. *)
Inductive operation : Type :=
| Boundary (r : region) (b : boundary)
| ReturnAddress.

Definition operation_fun (v : variant) (op : operation) : cfun :=
  match op with
  | Boundary r b => accessor v r b
  | ReturnAddress => Builtins.return_address
  end.

(** The image resolves every symbol the unit leaves to the linker. *)
Definition linked (u : translation_unit) (st : process) : bool :=
  forallb (fun d => bool_decide (is_Some (symtab st !! link_name d)))
          (tu_externs u).

(** ** The contract of the frame inspector *)

(** What §4.2 asks of [return_address_of(level)], called from a site that
    resumes at [site] while the frames [stack st] are live: level 0 is the
    address at which execution resumes in the enclosing function, level
    [n > 0] the address at which it resumes in the n-th ancestor caller,
    which is what the frame of the (n-1)-th ancestor records. *)
Definition spec_return_address_of (level : nat) (site : Z) (st : process)
  : option Z :=
  match level with
  | O => Some site
  | S n => frame_ret <$> stack st !! n
  end.

(** The function that called the inspector has a frame on the stack. *)
Definition has_caller_frame (st : process) : bool :=
  match stack st with
  | [] => false
  | _ :: _ => true
  end.

Definition faults (w : walk_failure) : bool :=
  match w with
  | Faults => true
  | Yields _ => false
  end.

(** Where an operation is sure to return: a boundary accessor in an image
    that linked; the frame inspector where the caller's frame can be
    walked to, or where the intrinsic does not fault on failure. *)
Definition defined_on (v : variant) (op : operation) (st : process) : bool :=
  match op with
  | Boundary _ _ => linked (unit_of v) st
  | ReturnAddress =>
      (can_walk_frames (abi st) && has_caller_frame st)
      || negb (faults (undeterminable (abi st)))
  end.

(** ** What a process does between two calls *)

(** The instrumented code writes counters, functions are entered and left,
    and the operations of the layer are called. *)
Inductive step (v : variant) : process -> process -> Prop :=
| step_store (a b : Z) (st : process) :
    step v st (store a b st)
| step_enter (fr : frame) (st : process) :
    step v st (push_frame fr st)
| step_leave (st : process) :
    step v st (pop_frame st)
| step_call (site : Z) (op : operation) (a : Z) (st st' : process) :
    call site (operation_fun v op) st = Returns a st' ->
    step v st st'.

(** ** The linker and the instrumentation *)

(** The names of the two sections. *)
Definition section_segment : string := "__DATA".

Definition section_name (r : region) : string :=
  match r with
  | Counters => "__llvm_prf_cnts"
  | Metadata => "__llvm_prf_data"
  end.

(** Modelled from the spec: the name of the boundary symbol the linker
    synthesises for a section (§4.1): on ELF [__start_<section>] and
    [__stop_<section>], on Mach-O the segment-qualified
    [section$start$<segment>$<section>] and
    [section$end$<segment>$<section>].  The linker is not part of the
    repository. *)
Definition boundary_symbol (v : variant) (b : boundary) (seg sect : string)
  : string :=
  match v, b with
  | ELF, Start => "__start_" +:+ sect
  | ELF, End_ => "__stop_" +:+ sect
  | MachO, Start => "section$start$" +:+ seg +:+ "$" +:+ sect
  | MachO, End_ => "section$end$" +:+ seg +:+ "$" +:+ sect
  end.

Record section : Type := {
  sect_segment : string;
  sect_name : string;
  sect_base : Z;
  sect_size : Z
}.

Definition wrap (a : Z) : Z := a mod addr_modulus.

(** Modelled from the spec: the boundary symbols are "the first/one-past-last
    addresses" of the section (§4.1), as 64-bit addresses. *)
Definition boundary_address (b : boundary) (s : section) : Z :=
  match b with
  | Start => wrap (sect_base s)
  | End_ => wrap (sect_base s + sect_size s)
  end.

(** Modelled from the spec: the symbols a link of the given sections
    defines. *)
Definition ld (v : variant) (ss : list section) : gmap string Z :=
  list_to_map
    (ss ≫= fun s =>
       [ (boundary_symbol v Start (sect_segment s) (sect_name s),
          boundary_address Start s);
         (boundary_symbol v End_ (sect_segment s) (sect_name s),
          boundary_address End_ s) ]).

(** Modelled from the spec: what the instrumentation puts in a binary
    (§3): an array of word-sized counters, one per coverage point, and a
    range of metadata bytes. *)
Record instrumentation : Type := {
  cnts_base : Z;
  cnts : list Z;
  data_base : Z;
  data : list Z
}.

(** The width of a counter: the platform word. *)
Definition counter_width : Z := 8.

(** Modelled from the spec: the two sections of an instrumented binary
    (§3, §4.1): the counters take one word each, the metadata one byte
    each. *)
Definition section_of (i : instrumentation) (r : region) : section :=
  match r with
  | Counters =>
      {| sect_segment := section_segment; sect_name := section_name Counters;
         sect_base := cnts_base i;
         sect_size := counter_width * Z.of_nat (length (cnts i)) |}
  | Metadata =>
      {| sect_segment := section_segment; sect_name := section_name Metadata;
         sect_base := data_base i;
         sect_size := Z.of_nat (length (data i)) |}
  end.

(** A section lies within the address space. *)
Definition fits (s : section) : bool :=
  (0 <=? sect_base s) && (sect_base s + sect_size s <? addr_modulus).

(** Modelled from the spec: the binary is properly instrumented (§8): both
    sections are there, within the address space, and the process image
    has the boundary symbols the linker made for them. *)
Definition properly_instrumented (v : variant) (i : instrumentation)
  (st : process) : Prop :=
  fits (section_of i Counters) = true /\
  fits (section_of i Metadata) = true /\
  ld v [section_of i Counters; section_of i Metadata] ⊆ symtab st.

(** The runtime-enablement flag of the profiling runtime. *)
Definition flag_name : string := "__llvm_profile_runtime".

(** A build is a list of translation units; these are the objects it
    defines. *)
Definition definitions (build : list translation_unit) : list global_def :=
  build ≫= tu_defs.

(** The definition of the flag that a build sees. *)
Definition flag_definition (build : list translation_unit)
  : option global_def :=
  snd <$> list_find (fun d => def_ident d = flag_name) (definitions build).

(** Modelled from the spec: how the toolchain reads the runtime-enablement
    flag (§4.1, §6), which is not part of the repository: the profiling
    runtime registers itself unless the build defines the flag and sets it
    to zero. *)
Definition profile_runtime_self_registers (build : list translation_unit)
  : bool :=
  match flag_definition build with
  | Some d => negb (def_init d =? 0)
  | None => true
  end.

(** The symbol each accessor takes the address of. *)
Definition accessor_decl (v : variant) (r : region) (b : boundary)
  : extern_decl :=
  match v, r, b with
  | ELF, Counters, Start => Linux.__start___llvm_prf_cnts
  | ELF, Counters, End_ => Linux.__stop___llvm_prf_cnts
  | ELF, Metadata, Start => Linux.__start___llvm_prf_data
  | ELF, Metadata, End_ => Linux.__stop___llvm_prf_data
  | MachO, Counters, Start => Mac.CountersStart
  | MachO, Counters, End_ => Mac.CountersEnd
  | MachO, Metadata, Start => Mac.PrfDataStart
  | MachO, Metadata, End_ => Mac.PrfDataEnd
  end.

(** ** Processes to run the functions on *)

(** A build with frame pointers, whose intrinsic yields 0 at the top of the
    stack; one without, whose intrinsic yields what it finds; and one whose
    intrinsic faults. *)
Definition walking_platform : platform :=
  {| can_walk_frames := true; undeterminable := Yields 0 |}.

Definition garbage_platform : platform :=
  {| can_walk_frames := false; undeterminable := Yields 0xdeadbeef |}.

Definition faulting_platform : platform :=
  {| can_walk_frames := true; undeterminable := Faults |}.

(** Four counters at 0x5000 and twelve bytes of metadata at 0x6000. *)
Definition demo_instrumentation : instrumentation :=
  {| cnts_base := 0x5000; cnts := [0; 0; 0; 0];
     data_base := 0x6000; data := replicate 12 0 |}.

Definition demo_sections : list section :=
  [section_of demo_instrumentation Counters;
   section_of demo_instrumentation Metadata].

(** [h] called [g], which called [f]; [f] is about to call an operation
    of the layer.  [f] returns into [g] at 0x401200, [g] into [h] at
    0x401300. *)
Definition demo_stack : list frame :=
  [ {| frame_fn := "f"; frame_ret := 0x401200 |};
    {| frame_fn := "g"; frame_ret := 0x401300 |} ].

Definition demo_process (v : variant) (p : platform) (stk : list frame)
  : process :=
  {| symtab := ld v demo_sections; memory := ∅; stack := stk; abi := p |}.

(** A build of the Mach-O locator with the frame inspector. *)
Definition demo_build : list translation_unit := [Builtins.tu; Mac.tu].

(** The call site in [f]: the call resumes at 0x401136. *)
Definition demo_site : Z := 0x401136.

(** The ELF process with frame pointers, and the same process after the
    instrumented code wrote the second counter and entered a function. *)
Definition demo_running : process :=
  demo_process ELF walking_platform demo_stack.

Definition demo_later : process :=
  push_frame {| frame_fn := "target"; frame_ret := 0x401140 |}
    (store 0x5008 1 demo_running).

(** ** Users of the layer *)

(** The names a variant leaves to the linker. *)
Definition extern_names (v : variant) : gset string :=
  list_to_set (link_name <$> tu_externs (unit_of v)).

(** An image that gives the four boundary symbols of a variant the
    addresses [addr], whatever they are, and a process that runs it. *)
Definition image_with (v : variant) (addr : region -> boundary -> Z)
  : gmap string Z :=
  list_to_map
    [ (link_name (accessor_decl v Counters Start), addr Counters Start);
      (link_name (accessor_decl v Counters End_), addr Counters End_);
      (link_name (accessor_decl v Metadata Start), addr Metadata Start);
      (link_name (accessor_decl v Metadata End_), addr Metadata End_) ].

Definition process_with (v : variant) (addr : region -> boundary -> Z)
  : process :=
  {| symtab := image_with v addr; memory := ∅; stack := [];
     abi := walking_platform |}.

(** * Properties *)

(** ** Calls *)

Lemma pop_push (fr : frame) (st : process) :
  pop_frame (push_frame fr st) = st.
Proof. by destruct st. Qed.

Lemma call_address_of (f : cfun) (d : extern_decl) (site : Z) (st : process) :
  fn_body f = address_of d ->
  call site f st = address_of d st.
Proof.
  intros Hbody. unfold call. rewrite Hbody. unfold address_of. simpl.
  destruct (symtab st !! link_name d); [by rewrite pop_push | done].
Qed.

Lemma accessor_body (v : variant) (r : region) (b : boundary) :
  fn_body (accessor v r b) = address_of (accessor_decl v r b).
Proof. by destruct v, r, b. Qed.

Lemma accessor_link_name (v : variant) (r : region) (b : boundary) :
  link_name (accessor_decl v r b)
  = boundary_symbol v b section_segment (section_name r).
Proof. by destruct v, r, b. Qed.

Lemma call_accessor (v : variant) (r : region) (b : boundary)
    (site : Z) (st : process) :
  call site (accessor v r b) st =
  match symtab st !! boundary_symbol v b section_segment (section_name r) with
  | Some a => Returns a st
  | None => Unresolved (boundary_symbol v b section_segment (section_name r))
  end.
Proof.
  rewrite (call_address_of _ _ _ _ (accessor_body v r b)).
  unfold address_of. by rewrite accessor_link_name.
Qed.

Lemma undetermined_push (fr : frame) (st : process) :
  match undetermined (push_frame fr st) with
  | Returns a st' => Returns a (pop_frame st')
  | Unresolved s => Unresolved s
  | Crashed => Crashed
  end = undetermined st.
Proof.
  unfold undetermined. simpl.
  destruct (undeterminable (abi st)); [by rewrite pop_push | done].
Qed.

Lemma call_return_address (site : Z) (st : process) :
  call site Builtins.return_address st =
  if can_walk_frames (abi st) then
    match stack st with
    | fr :: _ => Returns (frame_ret fr) st
    | [] => undetermined st
    end
  else undetermined st.
Proof.
  unfold call. simpl. unfold builtin_return_address. simpl.
  destruct (can_walk_frames (abi st)).
  - destruct (stack st) as [|fr rest] eqn:Hstk; simpl.
    + rewrite <- (undetermined_push
                    {| frame_fn := "return_address"; frame_ret := site |} st).
      unfold undetermined, push_frame. simpl. done.
    + by rewrite pop_push.
  - apply undetermined_push.
Qed.

(** A call that returns leaves the process as it found it. *)
Lemma call_returns_same (v : variant) (op : operation) (site a : Z)
    (st st' : process) :
  call site (operation_fun v op) st = Returns a st' -> st' = st.
Proof.
  destruct op as [r b|]; simpl.
  - rewrite call_accessor. destruct (symtab st !! _); congruence.
  - rewrite call_return_address. unfold undetermined.
    destruct (can_walk_frames (abi st)), (stack st), (undeterminable (abi st));
      congruence.
Qed.

(** ** The frame inspector *)

(** C1, as amended: [return_address] takes no level; it is the contract's
    inspector at level 1 only.  Where frames can be walked and the contract
    at level 1 gives the address [a] (the address at which the caller of
    the function that invokes [return_address] resumes), [return_address]
    returns [a] and leaves the process unchanged. *)
Theorem C1_return_address_is_level_one (site a : Z) (st : process) :
  can_walk_frames (abi st) = true ->
  spec_return_address_of 1 site st = Some a ->
  fn_params Builtins.return_address = [] /\
  call site Builtins.return_address st = Returns a st.
Proof.
  intros Hwalk Hspec. split; [done|].
  rewrite call_return_address, Hwalk.
  unfold spec_return_address_of in Hspec.
  destruct (stack st) as [|fr rest]; simpl in Hspec; congruence.
Qed.

Lemma C1_return_address_is_level_one_witness :
  can_walk_frames (abi demo_running) = true /\
  spec_return_address_of 1 demo_site demo_running = Some 0x401200 /\
  call demo_site Builtins.return_address demo_running
  = Returns 0x401200 demo_running.
Proof.
  split; [reflexivity|]. split; [reflexivity|].
  apply (proj2 (C1_return_address_is_level_one demo_site 0x401200
                  demo_running eq_refl eq_refl)).
Defined.

(** C1, as stated, fails: at levels 0 and 2 the contract gives the call
    site's resumption address and the grandparent's, while
    [return_address], which has no level to be told, returns the level-1
    address. *)
Lemma C1_level_argument_counterexample :
  spec_return_address_of 0 demo_site demo_running = Some 0x401136 /\
  spec_return_address_of 2 demo_site demo_running = Some 0x401300 /\
  call demo_site Builtins.return_address demo_running
  = Returns 0x401200 demo_running /\
  ~ (forall (level : nat) (a : Z),
       spec_return_address_of level demo_site demo_running = Some a ->
       call demo_site Builtins.return_address demo_running
       = Returns a demo_running).
Proof.
  repeat split; try reflexivity.
  intros Hall. specialize (Hall 0%nat 0x401136 eq_refl).
  rewrite call_return_address in Hall. simpl in Hall. congruence.
Qed.

(** C2, as amended: when the function that calls [return_address] has no
    frame to walk to, or the platform cannot walk frames, the call does
    exactly what the intrinsic does where it cannot determine a frame: it
    returns the sentinel 0 on a platform whose intrinsic yields 0, and
    otherwise returns the intrinsic's arbitrary value or crashes. *)
Theorem C2_undeterminable_frame (site : Z) (st : process) :
  can_walk_frames (abi st) = false \/ has_caller_frame st = false ->
  call site Builtins.return_address st = undetermined st /\
  (undeterminable (abi st) = Yields 0 ->
   call site Builtins.return_address st = Returns 0 st).
Proof.
  intros Hwhy.
  assert (Hcall : call site Builtins.return_address st = undetermined st).
  { rewrite call_return_address.
    destruct (can_walk_frames (abi st)); [|done].
    destruct Hwhy as [Hwalk | Hframe]; [done|].
    unfold has_caller_frame in Hframe. by destruct (stack st). }
  split; [exact Hcall|].
  intros Hzero. rewrite Hcall. unfold undetermined. by rewrite Hzero.
Qed.

Lemma C2_undeterminable_frame_witness :
  (can_walk_frames (abi (demo_process ELF walking_platform [])) = false \/
   has_caller_frame (demo_process ELF walking_platform []) = false) /\
  call demo_site Builtins.return_address (demo_process ELF walking_platform [])
  = Returns 0 (demo_process ELF walking_platform []).
Proof.
  split; [right; reflexivity|].
  apply (C2_undeterminable_frame demo_site
           (demo_process ELF walking_platform []));
    [right; reflexivity | reflexivity].
Defined.

(** C2, as stated, fails: on a build without frame pointers whose intrinsic
    yields what it finds, the call returns a value that is not the
    sentinel; on a platform whose intrinsic faults at the top of the
    stack, the call crashes. *)
Lemma C2_sentinel_counterexample :
  can_walk_frames garbage_platform = false /\
  call demo_site Builtins.return_address
    (demo_process ELF garbage_platform demo_stack)
  = Returns 0xdeadbeef (demo_process ELF garbage_platform demo_stack) /\
  0xdeadbeef <> 0 /\
  has_caller_frame (demo_process ELF faulting_platform []) = false /\
  call demo_site Builtins.return_address
    (demo_process ELF faulting_platform [])
  = Crashed.
Proof. repeat split; try reflexivity. discriminate. Qed.

(** ** The section locator *)

(** C3: each variant's file defines exactly four functions, the four
    accessors of the contract; none takes a parameter, and a call of each
    returns the address that the image gives to the boundary symbol the
    linker makes for the named section ([__start_]/[__stop_] of
    [__llvm_prf_cnts] and [__llvm_prf_data] on ELF,
    [section$start$__DATA$]/[section$end$__DATA$] of the same sections on
    Mach-O), in an unchanged process; it names the symbol where the image
    has none. *)
Theorem C3_accessors_return_boundary_symbols (v : variant) :
  length (tu_funs (unit_of v)) = 4%nat /\
  tu_funs (unit_of v) ≡ₚ
    [accessor v Counters Start; accessor v Counters End_;
     accessor v Metadata Start; accessor v Metadata End_] /\
  forall (r : region) (b : boundary),
    fn_params (accessor v r b) = [] /\
    forall (site : Z) (st : process),
      call site (accessor v r b) st =
      match symtab st !! boundary_symbol v b section_segment (section_name r)
      with
      | Some a => Returns a st
      | None =>
          Unresolved (boundary_symbol v b section_segment (section_name r))
      end.
Proof.
  split; [by destruct v|]. split.
  - destruct v; simpl; [|done].
    apply (Permutation_app_comm
             [Linux.get_start_prf_data; Linux.get_end_prf_data]
             [Linux.get_start_instrumentation_counters;
              Linux.get_end_instrumentation_counters]).
  - intros r b. split; [by destruct v, r, b|].
    intros site st. apply call_accessor.
Qed.

(** C9, as amended: a call of any of the five operations, in either
    variant, that returns leaves the whole process (symbols, memory, stack,
    platform) as it was; the only thing the caller gets is the returned
    value. *)
Theorem C9_operations_leave_process_unchanged (v : variant) (op : operation)
    (site a : Z) (st st' : process) :
  call site (operation_fun v op) st = Returns a st' ->
  st' = st.
Proof. apply call_returns_same. Qed.

Lemma C9_operations_leave_process_unchanged_witness :
  call demo_site (operation_fun MachO (Boundary Counters End_))
    (demo_process MachO walking_platform demo_stack)
  = Returns 0x5020 (demo_process MachO walking_platform demo_stack) /\
  demo_process MachO walking_platform demo_stack
  = demo_process MachO walking_platform demo_stack.
Proof.
  split; [reflexivity|].
  apply (C9_operations_leave_process_unchanged MachO (Boundary Counters End_)
           demo_site 0x5020
           (demo_process MachO walking_platform demo_stack)
           (demo_process MachO walking_platform demo_stack)).
  reflexivity.
Defined.

(** C9, as stated, fails for [return_address]: in a build without frame
    pointers, on a platform whose intrinsic faults where it cannot
    determine the frame, the call does not hand back an unchanged process;
    it crashes it. *)
Lemma C9_crash_counterexample :
  call demo_site (operation_fun MachO ReturnAddress)
    (demo_process MachO
       {| can_walk_frames := false; undeterminable := Faults |} demo_stack)
  = Crashed /\
  ~ (exists a : Z,
       call demo_site (operation_fun MachO ReturnAddress)
         (demo_process MachO
            {| can_walk_frames := false; undeterminable := Faults |}
            demo_stack)
       = Returns a
           (demo_process MachO
              {| can_walk_frames := false; undeterminable := Faults |}
              demo_stack)).
Proof.
  split; [reflexivity|].
  intros [a Hcall]. discriminate Hcall.
Qed.

(** C10, as amended: every operation is a single return; a boundary
    accessor yields a value in every image that linked, and
    [return_address] yields a value wherever the caller's frame can be
    walked to or the intrinsic does not fault on failure. *)
Theorem C10_operations_yield_a_value (v : variant) (op : operation)
    (site : Z) (st : process) :
  defined_on v op st = true ->
  exists a : Z, call site (operation_fun v op) st = Returns a st.
Proof.
  destruct op as [r b|]; simpl; intros Hdef.
  - rewrite call_accessor.
    assert (Hsym : is_Some
              (symtab st !! boundary_symbol v b section_segment (section_name r))).
    { unfold linked in Hdef.
      rewrite forallb_forall in Hdef.
      rewrite <- accessor_link_name.
      assert (Hin : In (accessor_decl v r b) (tu_externs (unit_of v)))
        by (destruct v, r, b; simpl; tauto).
      apply Hdef in Hin. by apply bool_decide_eq_true in Hin. }
    destruct Hsym as [a ->]. by exists a.
  - rewrite call_return_address. unfold undetermined.
    unfold has_caller_frame in Hdef.
    destruct (can_walk_frames (abi st)), (stack st) as [|fr rest],
      (undeterminable (abi st)) as [w|]; simpl in Hdef; try discriminate;
      eauto.
Qed.

Lemma C10_operations_yield_a_value_witness :
  defined_on ELF ReturnAddress (demo_process ELF faulting_platform demo_stack)
  = true /\
  exists a : Z,
    call demo_site (operation_fun ELF ReturnAddress)
      (demo_process ELF faulting_platform demo_stack)
    = Returns a (demo_process ELF faulting_platform demo_stack).
Proof.
  split; [reflexivity|].
  apply (C10_operations_yield_a_value ELF ReturnAddress demo_site
           (demo_process ELF faulting_platform demo_stack)).
  reflexivity.
Defined.

(** C10, as stated, fails for [return_address]: with no caller frame to
    walk to, on a platform whose intrinsic faults, the call yields no
    value. *)
Lemma C10_total_counterexample :
  call demo_site (operation_fun ELF ReturnAddress)
    (demo_process ELF faulting_platform [])
  = Crashed /\
  ~ (exists (a : Z) (st' : process),
       call demo_site (operation_fun ELF ReturnAddress)
         (demo_process ELF faulting_platform [])
       = Returns a st').
Proof.
  split; [reflexivity|].
  intros (a & st' & Hcall). discriminate Hcall.
Qed.

(** ** The image does not move *)

Lemma step_symtab (v : variant) (st st' : process) :
  step v st st' -> symtab st' = symtab st.
Proof.
  destruct 1 as [a b st | fr st | st | site op a st st' Hcall]; try done.
  by rewrite (call_returns_same _ _ _ _ _ _ Hcall).
Qed.

Lemma steps_symtab (v : variant) (st st' : process) :
  rtc (step v) st st' -> symtab st' = symtab st.
Proof.
  induction 1 as [st | st1 st2 st3 Hstep _ IH]; [done|].
  rewrite IH. by apply (step_symtab v).
Qed.

(** C4: within one run of a process, two calls of the same accessor return
    the same address, whatever the process does in between (counter
    writes, calls and returns, other calls of the layer); in particular
    when the second call follows the first at once. *)
Theorem C4_accessors_idempotent (v : variant) (r : region) (b : boundary)
    (site site' a : Z) (st st1 st2 : process) :
  call site (accessor v r b) st = Returns a st1 ->
  rtc (step v) st1 st2 ->
  call site' (accessor v r b) st2 = Returns a st2.
Proof.
  intros Hfirst Hrun.
  assert (Hst1 : st1 = st)
    by exact (call_returns_same v (Boundary r b) _ _ _ _ Hfirst).
  subst st1. revert Hfirst. rewrite !call_accessor.
  rewrite (steps_symtab _ _ _ Hrun).
  destruct (symtab st !! _); [|done]. congruence.
Qed.

Lemma C4_accessors_idempotent_witness :
  call demo_site (accessor ELF Counters Start) demo_running
  = Returns 0x5000 demo_running /\
  rtc (step ELF) demo_running demo_later /\
  call 0x401150 (accessor ELF Counters Start) demo_later
  = Returns 0x5000 demo_later.
Proof.
  assert (Hrun : rtc (step ELF) demo_running demo_later).
  { eapply rtc_l; [apply (step_store ELF 0x5008 1)|].
    eapply rtc_l; [apply step_enter|]. apply rtc_refl. }
  split; [reflexivity|]. split; [exact Hrun|].
  apply (C4_accessors_idempotent ELF Counters Start demo_site 0x401150
           0x5000 demo_running demo_running demo_later);
    [reflexivity | exact Hrun].
Defined.

(** ** The layout the linker fixes *)

Lemma ld_boundary (v : variant) (i : instrumentation) (r : region)
    (b : boundary) :
  ld v [section_of i Counters; section_of i Metadata]
    !! boundary_symbol v b section_segment (section_name r)
  = Some (boundary_address b (section_of i r)).
Proof. destruct v, r, b; reflexivity. Qed.

Lemma instrumented_call (v : variant) (i : instrumentation) (st : process)
    (r : region) (b : boundary) (site : Z) :
  properly_instrumented v i st ->
  call site (accessor v r b) st
  = Returns (boundary_address b (section_of i r)) st.
Proof.
  intros (_ & _ & Hsub). rewrite call_accessor.
  by rewrite (lookup_weaken _ _ _ _ (ld_boundary v i r b) Hsub).
Qed.

Lemma section_size_nonneg (i : instrumentation) (r : region) :
  0 <= sect_size (section_of i r).
Proof. destruct r; simpl; unfold counter_width; lia. Qed.

Lemma fits_boundaries (s : section) :
  fits s = true -> 0 <= sect_size s ->
  boundary_address Start s = sect_base s /\
  boundary_address End_ s = sect_base s + sect_size s.
Proof.
  unfold fits, boundary_address, wrap. intros Hfits Hsize.
  apply andb_prop in Hfits as [Hlo Hhi].
  apply Z.leb_le in Hlo. apply Z.ltb_lt in Hhi.
  split; apply Z.mod_small; lia.
Qed.

Lemma instrumented_fits (v : variant) (i : instrumentation) (st : process)
    (r : region) :
  properly_instrumented v i st -> fits (section_of i r) = true.
Proof. intros (Hc & Hd & _). by destruct r. Qed.

(** C5: in a properly instrumented binary, for each of the two regions
    the start accessor and the end accessor both return, and the address
    of the start is at most the address of the end. *)
Theorem C5_start_le_end (v : variant) (i : instrumentation) (st : process)
    (r : region) (site site' : Z) :
  properly_instrumented v i st ->
  exists lo hi : Z,
    call site (accessor v r Start) st = Returns lo st /\
    call site' (accessor v r End_) st = Returns hi st /\
    lo <= hi.
Proof.
  intros Hinst.
  exists (boundary_address Start (section_of i r)),
         (boundary_address End_ (section_of i r)).
  rewrite !(instrumented_call v i st r _ _ Hinst).
  repeat split.
  pose proof (section_size_nonneg i r) as Hsize.
  destruct (fits_boundaries _ (instrumented_fits v i st r Hinst) Hsize)
    as [-> ->].
  lia.
Qed.

(** C6: in a properly instrumented binary, the distance in bytes from the
    start of the counters to their end is a multiple of the width of a
    counter, and that width is the size of the [unsigned long int] the
    counter accessors point to, which is the size of a pointer. *)
Theorem C6_counters_extent_multiple_of_width (v : variant)
    (i : instrumentation) (st : process) (site site' : Z) :
  properly_instrumented v i st ->
  exists lo hi : Z,
    call site (accessor v Counters Start) st = Returns lo st /\
    call site' (accessor v Counters End_) st = Returns hi st /\
    (hi - lo) mod counter_width = 0 /\
    hi - lo = counter_width * Z.of_nat (length (cnts i)) /\
    sizeof (pointee (fn_result (accessor v Counters Start))) = counter_width /\
    sizeof (pointee (fn_result (accessor v Counters End_))) = counter_width /\
    sizeof (fn_result (accessor v Counters Start)) = counter_width.
Proof.
  intros Hinst.
  exists (boundary_address Start (section_of i Counters)),
         (boundary_address End_ (section_of i Counters)).
  rewrite !(instrumented_call v i st Counters _ _ Hinst).
  pose proof (section_size_nonneg i Counters) as Hsize.
  destruct (fits_boundaries _ (instrumented_fits v i st Counters Hinst) Hsize)
    as [-> ->].
  simpl.
  replace (cnts_base i + counter_width * Z.of_nat (length (cnts i))
           - cnts_base i)
    with (Z.of_nat (length (cnts i)) * counter_width) by lia.
  repeat split; try (by destruct v).
  - apply Z.mod_mul. unfold counter_width. lia.
  - lia.
Qed.

(** Evaluates [properly_instrumented] on a given image. *)
Ltac check_instrumented :=
  split; [reflexivity | split; [reflexivity | reflexivity]].

Lemma C5_start_le_end_witness :
  properly_instrumented ELF demo_instrumentation demo_running /\
  exists lo hi : Z,
    call demo_site (accessor ELF Metadata Start) demo_running
    = Returns lo demo_running /\
    call demo_site (accessor ELF Metadata End_) demo_running
    = Returns hi demo_running /\
    lo <= hi.
Proof.
  split; [check_instrumented|].
  apply (C5_start_le_end ELF demo_instrumentation demo_running Metadata
           demo_site demo_site).
  check_instrumented.
Defined.

Lemma C6_counters_extent_multiple_of_width_witness :
  properly_instrumented MachO demo_instrumentation
    (demo_process MachO walking_platform demo_stack) /\
  exists lo hi : Z,
    call demo_site (accessor MachO Counters Start)
      (demo_process MachO walking_platform demo_stack)
    = Returns lo (demo_process MachO walking_platform demo_stack) /\
    call demo_site (accessor MachO Counters End_)
      (demo_process MachO walking_platform demo_stack)
    = Returns hi (demo_process MachO walking_platform demo_stack) /\
    (hi - lo) mod counter_width = 0.
Proof.
  split; [check_instrumented|].
  destruct (C6_counters_extent_multiple_of_width MachO demo_instrumentation
              (demo_process MachO walking_platform demo_stack)
              demo_site demo_site)
    as (lo & hi & Hlo & Hhi & Hmod & _); [check_instrumented|].
  exists lo, hi. auto.
Defined.

(** ** The runtime-enablement flag *)

Lemma unique_definition (l : list global_def) (d d' : global_def) :
  NoDup (def_ident <$> l) ->
  d ∈ l -> d' ∈ l -> def_ident d = def_ident d' -> d = d'.
Proof.
  induction l as [|x l IH]; intros Hnodup Hd Hd' Hid.
  - by apply elem_of_nil in Hd.
  - rewrite fmap_cons in Hnodup. apply NoDup_cons in Hnodup as [Hx Hnodup].
    apply elem_of_cons in Hd as [-> | Hd];
      apply elem_of_cons in Hd' as [-> | Hd']; [done | | | by apply IH].
    + exfalso. apply Hx. rewrite Hid. by apply list_elem_of_fmap_2.
    + exfalso. apply Hx. rewrite <- Hid. by apply list_elem_of_fmap_2.
Qed.

Lemma variant_defines_flag (v : variant) :
  tu_defs (unit_of v)
  = [ {| def_ident := flag_name; def_type := Tint; def_init := 0 |} ].
Proof. by destruct v. Qed.

(** C7: each variant's file defines [__llvm_profile_runtime], an [int]
    initialised to zero, and defines nothing else; so in every build that
    contains either variant and links (no symbol defined twice), the flag
    the build sees is that definition, its value is zero, and the profiling
    runtime does not register itself. *)
Theorem C7_profile_runtime_disabled (v : variant)
    (build : list translation_unit) :
  unit_of v ∈ build ->
  NoDup (def_ident <$> definitions build) ->
  tu_defs (unit_of v)
  = [ {| def_ident := "__llvm_profile_runtime"; def_type := Tint;
         def_init := 0 |} ] /\
  flag_definition build
  = Some {| def_ident := "__llvm_profile_runtime"; def_type := Tint;
            def_init := 0 |} /\
  profile_runtime_self_registers build = false.
Proof.
  intros Hin Hnodup.
  set (d0 := {| def_ident := "__llvm_profile_runtime"; def_type := Tint;
                def_init := 0 |}).
  assert (Hd0 : d0 ∈ definitions build).
  { unfold definitions. apply list_elem_of_bind. exists (unit_of v).
    split; [|done]. rewrite variant_defines_flag. apply list_elem_of_here. }
  assert (Hflag : flag_definition build = Some d0).
  { unfold flag_definition.
    destruct (list_find_elem_of (fun d => def_ident d = flag_name)
                (definitions build) d0 Hd0 eq_refl) as [[j d] Hfind].
    rewrite Hfind. simpl. f_equal.
    apply list_find_Some in Hfind as (Hj & Hname & _).
    apply (unique_definition (definitions build)); [done | | done | done].
    by apply list_elem_of_lookup_2 in Hj. }
  split; [apply variant_defines_flag|]. split; [done|].
  unfold profile_runtime_self_registers. by rewrite Hflag.
Qed.

Lemma C7_profile_runtime_disabled_witness :
  unit_of MachO ∈ demo_build /\
  NoDup (def_ident <$> definitions demo_build) /\
  profile_runtime_self_registers demo_build = false.
Proof.
  assert (Hin : unit_of MachO ∈ demo_build)
    by (apply list_elem_of_further, list_elem_of_here).
  assert (Hnodup : NoDup (def_ident <$> definitions demo_build))
    by (apply NoDup_singleton).
  split; [exact Hin|]. split; [exact Hnodup|].
  apply (C7_profile_runtime_disabled MachO demo_build Hin Hnodup).
Defined.

(** ** One contract, two variants *)

(** C8: the two files export the same four function names; accessor by
    accessor, name, parameter list (empty) and result type agree, the
    counters pair returning pointers to [unsigned long int] and the
    metadata pair pointers to [char]; and for one and the same
    instrumentation, linked for ELF and for Mach-O, each accessor of
    either variant returns the same boundary of the same section. *)
Theorem C8_variants_same_contract (i : instrumentation)
    (stE stM : process) :
  properly_instrumented ELF i stE ->
  properly_instrumented MachO i stM ->
  (fn_name <$> tu_funs Linux.tu) ≡ₚ (fn_name <$> tu_funs Mac.tu) /\
  (forall (r : region) (b : boundary),
     fn_name (accessor ELF r b) = fn_name (accessor MachO r b) /\
     fn_params (accessor ELF r b) = fn_params (accessor MachO r b) /\
     fn_result (accessor ELF r b) = fn_result (accessor MachO r b)) /\
  (forall (v : variant) (b : boundary),
     fn_result (accessor v Counters b) = Tptr Tulong /\
     fn_result (accessor v Metadata b) = Tptr Tchar) /\
  (forall (r : region) (b : boundary) (site site' : Z),
     call site (accessor ELF r b) stE
     = Returns (boundary_address b (section_of i r)) stE /\
     call site' (accessor MachO r b) stM
     = Returns (boundary_address b (section_of i r)) stM).
Proof.
  intros HE HM. repeat split.
  - apply (Permutation_app_comm
             ["get_start_prf_data"; "get_end_prf_data"]
             ["get_start_instrumentation_counters";
              "get_end_instrumentation_counters"]).
  - by destruct r, b.
  - by destruct r, b.
  - by destruct r, b.
  - by destruct v, b.
  - by destruct v, b.
  - by apply instrumented_call.
  - by apply instrumented_call.
Qed.

Lemma C8_variants_same_contract_witness :
  properly_instrumented ELF demo_instrumentation demo_running /\
  properly_instrumented MachO demo_instrumentation
    (demo_process MachO garbage_platform []) /\
  result (call demo_site (accessor ELF Metadata End_) demo_running)
  = result (call demo_site (accessor MachO Metadata End_)
              (demo_process MachO garbage_platform [])).
Proof.
  split; [check_instrumented|]. split; [check_instrumented|].
  destruct (C8_variants_same_contract demo_instrumentation demo_running
              (demo_process MachO garbage_platform []))
    as (_ & _ & _ & Hsame); [check_instrumented | check_instrumented |].
  destruct (Hsame Metadata End_ demo_site demo_site) as [-> ->].
  reflexivity.
Defined.

(** * Further properties of the three files *)

(** ** What the accessors ask of the image *)

Lemma accessor_decl_declared (v : variant) (r : region) (b : boundary) :
  accessor_decl v r b ∈ tu_externs (unit_of v).
Proof. destruct v, r, b; simpl; set_solver. Qed.

Lemma declared_accessor_decl (v : variant) (d : extern_decl) :
  d ∈ tu_externs (unit_of v) ->
  exists (r : region) (b : boundary), d = accessor_decl v r b.
Proof.
  intros Hd. destruct v; simpl in Hd;
    repeat (apply elem_of_cons in Hd as [-> | Hd];
            [ first [ by exists Counters, Start | by exists Counters, End_
                    | by exists Metadata, Start | by exists Metadata, End_ ]
            | ]);
    by apply elem_of_nil in Hd.
Qed.

(** The image resolves every symbol a variant's file leaves to the linker
    exactly when all four of its accessors return, from any call site: a
    missing symbol is the only way an accessor fails, and every declared
    symbol is needed by one of them. *)
Theorem linked_iff_accessors_return (v : variant) (st : process) :
  linked (unit_of v) st = true <->
  (forall (r : region) (b : boundary) (site : Z),
     exists a : Z, call site (accessor v r b) st = Returns a st).
Proof.
  unfold linked. rewrite forallb_forall. split.
  - intros Hall r b site.
    rewrite (call_address_of _ _ _ _ (accessor_body v r b)).
    unfold address_of.
    assert (Hin : In (accessor_decl v r b) (tu_externs (unit_of v)))
      by (apply list_elem_of_In, accessor_decl_declared).
    apply Hall, bool_decide_eq_true in Hin as [a Ha].
    rewrite Ha. by exists a.
  - intros Hall d Hd. apply bool_decide_eq_true.
    apply list_elem_of_In, declared_accessor_decl in Hd as (r & b & ->).
    destruct (Hall r b 0) as [a Hcall].
    rewrite (call_address_of _ _ _ _ (accessor_body v r b)) in Hcall.
    unfold address_of in Hcall.
    destruct (symtab st !! link_name (accessor_decl v r b)); [done|].
    discriminate Hcall.
Qed.

(** The accessors neither check nor relate the boundaries: whatever four
    addresses an image gives to the four symbols of a variant, each
    accessor returns the one of its own symbol, also where a region's end
    lies below its start. *)
Theorem accessors_return_the_image_binding (v : variant)
    (addr : region -> boundary -> Z) (r : region) (b : boundary) (site : Z) :
  call site (accessor v r b) (process_with v addr)
  = Returns (addr r b) (process_with v addr).
Proof.
  rewrite (call_address_of _ _ _ _ (accessor_body v r b)).
  unfold address_of, process_with, image_with. simpl.
  by destruct v, r, b.
Qed.

(** ** One variant per build *)

Lemma other_variant_name (v v' : variant) (r : region) (b : boundary) :
  v <> v' -> link_name (accessor_decl v' r b) ∉ extern_names v.
Proof.
  intros Hne. destruct v, v'; try done; destruct r, b;
    apply (bool_decide_unpack _); vm_compute; exact I.
Qed.

(** The wrong variant does not link: in an image whose symbols are at most
    those the file of one variant asks for, every accessor of the other
    variant names its symbol as unresolved; none returns an address. *)
Theorem wrong_variant_unresolved (v v' : variant) (r : region)
    (b : boundary) (site : Z) (st : process) :
  v <> v' ->
  dom (symtab st) ⊆ extern_names v ->
  call site (accessor v' r b) st
  = Unresolved (link_name (accessor_decl v' r b)).
Proof.
  intros Hne Hdom.
  rewrite (call_address_of _ _ _ _ (accessor_body v' r b)).
  unfold address_of.
  destruct (symtab st !! link_name (accessor_decl v' r b)) as [a|] eqn:Hlook;
    [|done].
  exfalso. apply (other_variant_name v v' r b Hne), Hdom.
  apply elem_of_dom. by exists a.
Qed.

Lemma wrong_variant_unresolved_witness :
  ELF <> MachO /\
  dom (symtab demo_running) ⊆ extern_names ELF /\
  call demo_site (accessor MachO Counters Start) demo_running
  = Unresolved "section$start$__DATA$__llvm_prf_cnts".
Proof.
  assert (Hdom : dom (symtab demo_running) ⊆ extern_names ELF)
    by (apply (bool_decide_unpack _); vm_compute; exact I).
  split; [discriminate|]. split; [exact Hdom|].
  apply (wrong_variant_unresolved ELF MachO Counters Start demo_site
           demo_running); [discriminate | exact Hdom].
Defined.

Lemma definitions_app (l1 l2 : list translation_unit) :
  definitions (l1 ++ l2)%list = (definitions l1 ++ definitions l2)%list.
Proof. unfold definitions. apply bind_app. Qed.

Lemma flag_defined_in (u : translation_unit) (build : list translation_unit) :
  u ∈ build ->
  (exists d, d ∈ tu_defs u /\ def_ident d = flag_name) ->
  flag_name ∈ def_ident <$> definitions build.
Proof.
  intros Hu (d & Hd & <-). apply list_elem_of_fmap_2.
  unfold definitions. apply list_elem_of_bind. by exists u.
Qed.

(** The two variants exclude each other: a build that contains both files
    defines [__llvm_profile_runtime] twice, so it does not link. *)
Theorem both_variants_clash (build : list translation_unit) :
  Linux.tu ∈ build ->
  Mac.tu ∈ build ->
  ~ NoDup (def_ident <$> definitions build).
Proof.
  intros HL HM Hnodup.
  assert (Hflag : forall u, u = Linux.tu \/ u = Mac.tu ->
            exists d, d ∈ tu_defs u /\ def_ident d = flag_name).
  { intros u [-> | ->]; eexists; (split; [apply list_elem_of_here | done]). }
  assert (Hdiff : Mac.tu <> Linux.tu) by discriminate.
  apply list_elem_of_split in HL as (l1 & l2 & ->).
  rewrite definitions_app, fmap_app in Hnodup.
  apply NoDup_app in Hnodup as (_ & Hdisj & Hright).
  apply elem_of_app in HM as [HM | HM].
  - apply (Hdisj flag_name).
    + apply (flag_defined_in Mac.tu); [done | apply Hflag; by right].
    + apply (flag_defined_in Linux.tu);
        [apply list_elem_of_here | apply Hflag; by left].
  - apply elem_of_cons in HM as [HM | HM]; [done|].
    change (definitions (Linux.tu :: l2))
      with (tu_defs Linux.tu ++ definitions l2)%list in Hright.
    simpl in Hright. apply NoDup_cons in Hright as [Hnotin _].
    apply Hnotin. apply (flag_defined_in Mac.tu); [done | apply Hflag; by right].
Qed.

Lemma both_variants_clash_witness :
  Linux.tu ∈ [Builtins.tu; Linux.tu; Mac.tu] /\
  Mac.tu ∈ [Builtins.tu; Linux.tu; Mac.tu] /\
  ~ NoDup (def_ident <$> definitions [Builtins.tu; Linux.tu; Mac.tu]).
Proof.
  assert (HL : Linux.tu ∈ [Builtins.tu; Linux.tu; Mac.tu])
    by (apply list_elem_of_further, list_elem_of_here).
  assert (HM : Mac.tu ∈ [Builtins.tu; Linux.tu; Mac.tu])
    by (do 2 apply list_elem_of_further; apply list_elem_of_here).
  split; [exact HL|]. split; [exact HM|].
  apply (both_variants_clash [Builtins.tu; Linux.tu; Mac.tu] HL HM).
Defined.
